(** * btcore/src/uuid.cc: the 128-bit Bluetooth UUID value type

    A shallow embedding of [uuid.cc] and of the C library functions it
    calls, followed by the properties of parsing, formatting, emptiness,
    base detection and narrowing.

    Conventions of the embedding.
    - [uint8_t] values are integers of [Z]; a store into a [uint8_t]
      lvalue reduces modulo 256.
    - A [char] is an [ascii]; a region of [char] memory is a [string] of
      its bytes.  Reading past the bytes held by the [string] yields NUL,
      so that a [string] without NUL byte stands for the C string of the
      same characters followed by its terminator.
    - A pointer that the code compares with NULL is an [option]; [None]
      is NULL.
    - A failed [CHECK] terminates the process: result [Abort]. *)

From Stdlib Require Import ZArith List Bool Ascii String Lia Arith.
Import ListNotations.

Local Open Scope Z_scope.

(** ** The [CHECK] monad *)

Inductive checked (A : Type) : Type :=
| Done (a : A)
| Abort.
Arguments Done {A} a.
Arguments Abort {A}.

Definition check_bind {A B : Type} (c : checked A) (k : A -> checked B)
  : checked B :=
  match c with
  | Done a => k a
  | Abort => Abort
  end.

(** [CHECK(p != NULL)]: yields the pointee, or aborts. *)
Definition CHECK_nonnull {A : Type} (p : option A) : checked A :=
  match p with
  | Some a => Done a
  | None => Abort
  end.

Notation "x <- c ;; k" := (check_bind c (fun x => k))
  (at level 61, c at next level, right associativity).

(** ** Characters and C strings *)

Module CLib.

Definition NUL : ascii := "000"%char.

Definition code (c : ascii) : Z := Z.of_N (N_of_ascii c).

(** [s[i]] *)
Definition char_at (s : string) (i : nat) : ascii :=
  match String.get i s with
  | Some c => c
  | None => NUL
  end.

(** [s[i] = c]; a store outside the region is not modelled (the region is
    returned as it is). *)
Fixpoint store (s : string) (i : nat) (c : ascii) : string :=
  match s with
  | EmptyString => EmptyString
  | String a r =>
      match i with
      | O => String c r
      | S i' => String a (store r i' c)
      end
  end.

Fixpoint store_string (s : string) (i : nat) (src : string) : string :=
  match src with
  | EmptyString => s
  | String c r => store_string (store s i c) (S i) r
  end.

Fixpoint strlen (s : string) : nat :=
  match s with
  | EmptyString => O
  | String c r => if Ascii.eqb c NUL then O else S (strlen r)
  end.

(** The characters of the C string that starts the region. *)
Fixpoint c_str (s : string) : string :=
  match s with
  | EmptyString => EmptyString
  | String c r => if Ascii.eqb c NUL then EmptyString else String c (c_str r)
  end.

(** <ctype.h> in the C locale. *)
Definition in_range (lo hi c : ascii) : bool :=
  (code lo <=? code c) && (code c <=? code hi).

Definition isdigit (c : ascii) : bool := in_range "0" "9" c.
Definition isupper (c : ascii) : bool := in_range "A" "Z" c.
Definition islower (c : ascii) : bool := in_range "a" "z" c.
Definition isalpha (c : ascii) : bool := isupper c || islower c.
Definition isxdigit (c : ascii) : bool :=
  isdigit c || in_range "A" "F" c || in_range "a" "f" c.
Definition isspace (c : ascii) : bool :=
  Ascii.eqb c " " || in_range "009" "013" c.
Definition tolower (c : ascii) : ascii :=
  if isupper c then ascii_of_N (Z.to_N (code c + 32)) else c.

(** *** [strtoul]

    The conversion of <stdlib.h>: white space is skipped, an optional sign
    is read, then (base 16 or 0) an optional [0x] prefix, then the longest
    run of digits of the base.  The value is negated in [unsigned long]
    when the sign is [-]; it is 0 when there is no digit at all. *)

Definition ULONG_MAX : Z := 2 ^ 64 - 1.

Definition digit_value (c : ascii) : option Z :=
  if isdigit c then Some (code c - code "0")
  else if isalpha c then
    Some (code c - (if isupper c then code "A" - 10 else code "a" - 10))
  else None.

Fixpoint skip_space (s : string) : string :=
  match s with
  | String c r => if isspace c then skip_space r else s
  | EmptyString => s
  end.

(** The digit loop: [acc] is the value so far, [any] is 0 before the first
    digit, 1 after one, -1 after an overflow. *)
Fixpoint strtoul_digits (s : string) (base acc any : Z) : Z * Z :=
  match s with
  | EmptyString => (acc, any)
  | String c r =>
      match digit_value c with
      | None => (acc, any)
      | Some d =>
          if base <=? d then (acc, any)
          else if any <? 0 then strtoul_digits r base acc any
          else if (ULONG_MAX / base <? acc) ||
                  ((acc =? ULONG_MAX / base) && (ULONG_MAX mod base <? d))
               then strtoul_digits r base ULONG_MAX (-1)
               else strtoul_digits r base (acc * base + d) 1
      end
  end.

Definition strtoul (nptr : string) (base : Z) : Z :=
  if (base <? 0) || (base =? 1) || (36 <? base) then 0
  else
    let s := skip_space nptr in
    let '(neg, s) :=
      match s with
      | String "-" r => (true, r)
      | String "+" r => (false, r)
      | _ => (false, s)
      end in
    let '(s, base) :=
      match s with
      | String "0" (String x (String h r)) =>
          if ((base =? 0) || (base =? 16)) &&
             (Ascii.eqb x "x" || Ascii.eqb x "X") && isxdigit h
          then (String h r, 16) else (s, base)
      | _ => (s, base)
      end in
    let base :=
      if base =? 0 then (if Ascii.eqb (char_at s 0) "0" then 8 else 10)
      else base in
    let '(acc, any) := strtoul_digits s base 0 0 in
    if neg && (0 <? any) then (- acc) mod 2 ^ 64 else acc.

(** *** [snprintf(dst, size, "%02x", v)]

    [v] is the [int] passed for the conversion, which reads it as an
    [unsigned int]. *)

Definition hex_lower (d : Z) : ascii :=
  char_at "0123456789abcdef" (Z.to_nat d).

(** The digits of [v] in base 16, most significant first, in front of
    [acc]. *)
Fixpoint utox (fuel : nat) (v : Z) (acc : string) : string :=
  match fuel with
  | O => acc
  | S f =>
      let acc' := String (hex_lower (v mod 16)) acc in
      if v / 16 =? 0 then acc' else utox f (v / 16) acc'
  end.

Fixpoint zero_pad (n : nat) (s : string) : string :=
  match n with
  | O => s
  | S n' => String "0" (zero_pad n' s)
  end.

Definition fmt_02x (v : Z) : string :=
  let digits := utox 8 (v mod 2 ^ 32) EmptyString in
  zero_pad (2 - String.length digits) digits.

(** Writes at offset [pos] of the region [m] at most [size - 1] characters
    of [out] and a NUL; returns the new region and the length of [out]. *)
Definition snprintf (m : string) (pos size : nat) (out : string)
  : string * nat :=
  match size with
  | O => (m, String.length out)
  | S room =>
      let written := String.substring 0 (Nat.min room (String.length out)) out in
      (store (store_string m pos written)
             (pos + String.length written) NUL,
       String.length out)
  end.

(** [memcmp] on [uint8_t] arrays: the difference of the first two bytes
    that differ among the first [n], 0 when there is none. *)
Fixpoint memcmp (a b : list Z) (n : nat) : Z :=
  match n with
  | O => 0
  | S n' =>
      let x := hd 0 a in
      let y := hd 0 b in
      if x =? y then memcmp (tl a) (tl b) n' else x - y
  end.

(** [memcpy(dest, src, n)]: the new contents of [dest]. *)
Definition memcpy (dest src : list Z) (n : nat) : list Z :=
  firstn n src ++ skipn n dest.

End CLib.
Import CLib.

(** ** uuid.cc *)

Local Open Scope string_scope.
Local Open Scope Z_scope.

(** [bt_uuid_t]: [struct { uint8_t uu[16]; }]. *)
Record bt_uuid_t : Type := { uu : list Z }.

(** The values the type [bt_uuid_t] holds: 16 bytes. *)
Definition uuid_wf (u : bt_uuid_t) : Prop :=
  List.length (uu u) = 16%nat /\ Forall (fun b => 0 <= b < 256) (uu u).

(** [uuid->uu[i]] *)
Definition uu_at (u : bt_uuid_t) (i : nat) : Z := nth i (uu u) 0.

Fixpoint list_set (l : list Z) (i : nat) (v : Z) : list Z :=
  match l with
  | [] => []
  | x :: r =>
      match i with
      | O => v :: r
      | S i' => x :: list_set r i' v
      end
  end.

(** [uuid->uu[i] = v] with the conversion to [uint8_t]. *)
Definition set_uu (u : bt_uuid_t) (i : nat) (v : Z) : bt_uuid_t :=
  {| uu := list_set (uu u) i (v mod 256) |}.

Definition UUID_WELL_FORMED_STRING_LEN : nat := 36.
Definition UUID_WELL_FORMED_STRING_LEN_WITH_NULL : nat := 36 + 1.
Definition sizeof_bt_uuid_t : nat := 16.

(** [uuid_string_t] is its [char string[]] member. *)
Definition uuid_string_t : Type := string.

Definition empty_uuid : bt_uuid_t := {| uu := repeat 0 16 |}.

Definition base_uuid : bt_uuid_t :=
  {| uu := [0x00; 0x00; 0x00; 0x00; 0x00; 0x00; 0x10; 0x00; 0x80; 0x00; 0x00;
            0x80; 0x5f; 0x9b; 0x34; 0xfb] |}.

(** Modelled from the spec: [osi_calloc] of osi/include/allocator.h, the
    zero-initializing allocation; here for a region of [n] chars. *)
Fixpoint osi_calloc_chars (n : nat) : string :=
  match n with
  | O => EmptyString
  | S n' => String NUL (osi_calloc_chars n')
  end.

(** Modelled from the spec: [osi_calloc] of osi/include/allocator.h, the
    zero-initializing allocation; here for a [bt_uuid_t]. *)
Definition osi_calloc_uuid : bt_uuid_t := {| uu := repeat 0 sizeof_bt_uuid_t |}.

Definition uuid_string_new : uuid_string_t :=
  osi_calloc_chars UUID_WELL_FORMED_STRING_LEN_WITH_NULL.

Definition uuid_string_data (uuid_string : option uuid_string_t)
  : checked string :=
  s <- CHECK_nonnull uuid_string ;;
  Done s.

(** The [switch (i)] of the parsing loop: the cases where [s++] runs. *)
Definition skips_dash (i : nat) : bool :=
  match i with
  | 3 | 5 | 7 | 9 => true
  | _ => false
  end%nat.

(** The [for] loop of [uuid_new], with [n] iterations left, the index [i]
    and [s] as an offset into [uuid_string]. *)
Fixpoint uuid_new_loop (n i s : nat) (uuid_string : string) (uuid : bt_uuid_t)
  : bt_uuid_t :=
  match n with
  | O => uuid
  | S n' =>
      let buf :=
        String (char_at uuid_string s)
          (String (char_at uuid_string (S s)) (String NUL EmptyString)) in
      let uuid := set_uu uuid i (strtoul buf 16) in
      let s := if skips_dash i then S s else s in
      uuid_new_loop n' (S i) (s + 2) uuid_string uuid
  end.

Definition uuid_new (uuid_string : option string)
  : checked (option bt_uuid_t) :=
  str <- CHECK_nonnull uuid_string ;;
  if (strlen str <? UUID_WELL_FORMED_STRING_LEN)%nat then Done None
  else if negb (Ascii.eqb (char_at str 8) "-") ||
          negb (Ascii.eqb (char_at str 13) "-") ||
          negb (Ascii.eqb (char_at str 18) "-") ||
          negb (Ascii.eqb (char_at str 23) "-")
  then Done None
  else Done (Some (uuid_new_loop sizeof_bt_uuid_t 0 0 str osi_calloc_uuid)).

Definition uuid_is_empty (uuid : option bt_uuid_t) : bool :=
  match uuid with
  | None => true
  | Some u => memcmp (uu u) (uu empty_uuid) sizeof_bt_uuid_t =? 0
  end.

Definition uuid_is_equal (first second : option bt_uuid_t) : checked bool :=
  a <- CHECK_nonnull first ;;
  b <- CHECK_nonnull second ;;
  Done (memcmp (uu a) (uu b) sizeof_bt_uuid_t =? 0).

(** Returns the new contents of [*dest]. *)
Definition uuid_copy (dest src : option bt_uuid_t) : checked bt_uuid_t :=
  d <- CHECK_nonnull dest ;;
  s <- CHECK_nonnull src ;;
  Done {| uu := memcpy (uu d) (uu s) sizeof_bt_uuid_t |}.

(** The [for] loop of [uuid_is_base] over the indices [idx]. *)
Fixpoint uuid_is_base_loop (u : bt_uuid_t) (idx : list nat) : bool :=
  match idx with
  | [] => true
  | i :: rest =>
      if negb (uu_at u i =? uu_at base_uuid i) then false
      else uuid_is_base_loop u rest
  end.

Definition uuid_is_base (uuid : option bt_uuid_t) : bool :=
  match uuid with
  | None => false
  | Some u => uuid_is_base_loop u (seq 4 12)
  end.

(** The conversion of an [int] expression to [uint16_t], to [uint32_t]. *)
Definition to_uint16 (v : Z) : Z := v mod 2 ^ 16.
Definition to_uint32 (v : Z) : Z := v mod 2 ^ 32.
(** [int] arithmetic, wrapping. *)
Definition to_int (v : Z) : Z := (v + 2 ^ 31) mod 2 ^ 32 - 2 ^ 31.

(** [uuid16] holds the value of [*uuid16] before the call; the result is
    the returned flag and the value of [*uuid16] after it. *)
Definition uuid_128_to_16 (uuid : option bt_uuid_t) (uuid16 : option Z)
  : checked (bool * Z) :=
  u <- CHECK_nonnull uuid ;;
  out <- CHECK_nonnull uuid16 ;;
  if negb (uuid_is_base (Some u)) then Done (false, out)
  else
    Done (true,
          to_uint16 (to_int (to_int (Z.shiftl (uu_at u 2) 8) + uu_at u 3))).

Definition uuid_128_to_32 (uuid : option bt_uuid_t) (uuid32 : option Z)
  : checked (bool * Z) :=
  u <- CHECK_nonnull uuid ;;
  out <- CHECK_nonnull uuid32 ;;
  if negb (uuid_is_base (Some u)) then Done (false, out)
  else
    Done (true,
          to_uint32
            (to_int
               (to_int
                  (to_int (to_int (Z.shiftl (uu_at u 0) 24) +
                           to_int (Z.shiftl (uu_at u 1) 16)) +
                   to_int (Z.shiftl (uu_at u 2) 8)) +
                uu_at u 3))).

(** The state of [uuid_to_string]: the region [uuid_string->string] and
    the offset of the cursor [string] in it. *)
Definition cursor : Type := (string * nat)%type.

(** [string += snprintf(string, end - string, "%02x", uuid->uu[i])], where
    [end] is at offset 37 of the region.  The cursor stays below [end] in
    every call (it is at most 34), so the size is the difference in
    [nat]. *)
Definition put_02x (u : bt_uuid_t) (st : cursor) (i : nat) : cursor :=
  let '(m, pos) := st in
  let '(m', n) :=
    snprintf m pos (UUID_WELL_FORMED_STRING_LEN_WITH_NULL - pos)
      (fmt_02x (uu_at u i)) in
  (m', (pos + n)%nat).

(** [*string = '-'; ++string;] *)
Definition put_dash (st : cursor) : cursor :=
  let '(m, pos) := st in (store m pos "-", S pos).

(** [for (int i = lo; i < hi; i++) string += snprintf(...)] *)
Definition put_bytes (u : bt_uuid_t) (lo hi : nat) (st : cursor) : cursor :=
  fold_left (put_02x u) (seq lo (hi - lo)) st.

(** Returns the new contents of [uuid_string->string]. *)
Definition uuid_to_string (uuid : option bt_uuid_t)
  (uuid_string : option uuid_string_t) : checked uuid_string_t :=
  u <- CHECK_nonnull uuid ;;
  m <- CHECK_nonnull uuid_string ;;
  let st := (m, O) in
  let st := put_bytes u 0 4 st in
  let st := put_dash st in
  let st := put_bytes u 4 6 st in
  let st := put_dash st in
  let st := put_bytes u 6 8 st in
  let st := put_dash st in
  let st := put_bytes u 8 10 st in
  let st := put_dash st in
  let st := put_bytes u 10 16 st in
  Done (fst st).

(** ** Definitions used to state the properties *)

(** The two lowercase hexadecimal digits of a byte, high nibble first. *)
Definition hex_pair (b : Z) : string :=
  String (hex_lower (b / 16)) (String (hex_lower (b mod 16)) EmptyString).

Fixpoint hex_group (bytes : list Z) : string :=
  match bytes with
  | [] => EmptyString
  | b :: rest => hex_pair b ++ hex_group rest
  end.

(** The canonical string form as the specification words it: the 16 bytes
    in order as hex pairs, in groups of 4, 2, 2, 2 and 6 bytes joined by
    single dashes. *)
Definition canonical_string (u : bt_uuid_t) : string :=
  let b := uu u in
  hex_group (firstn 4 b) ++ "-" ++
  hex_group (firstn 2 (skipn 4 b)) ++ "-" ++
  hex_group (firstn 2 (skipn 6 b)) ++ "-" ++
  hex_group (firstn 2 (skipn 8 b)) ++ "-" ++
  hex_group (firstn 6 (skipn 10 b)).

(** The offsets of the four dashes of the canonical pattern. *)
Definition dash_offset (k : nat) : bool :=
  match k with
  | 8 | 13 | 18 | 23 => true
  | _ => false
  end%nat.

(** The offset in the canonical string of the first digit of byte [i]. *)
Definition hex_offset (i : nat) : nat :=
  (2 * i
   + (if 4 <=? i then 1 else 0) + (if 6 <=? i then 1 else 0)
   + (if 8 <=? i then 1 else 0) + (if 10 <=? i then 1 else 0))%nat.

(** A 36-character string of the canonical pattern: dashes at the four
    fixed offsets, hexadecimal digits of either case elsewhere. *)
Definition canonical_pattern (s : string) : bool :=
  (String.length s =? 36)%nat &&
  forallb
    (fun k => if dash_offset k then Ascii.eqb (char_at s k) "-"
              else isxdigit (char_at s k))
    (seq 0 36).

Fixpoint lowercase (s : string) : string :=
  match s with
  | EmptyString => EmptyString
  | String c r => String (tolower c) (lowercase r)
  end.

(** The condition under which [uuid_new] goes on to convert the digits. *)
Definition passes_checks (s : string) : Prop :=
  (36 <= strlen s)%nat /\
  char_at s 8 = "-"%char /\ char_at s 13 = "-"%char /\
  char_at s 18 = "-"%char /\ char_at s 23 = "-"%char.

(** The value of a hexadecimal digit of either case. *)
Definition xdigit_value (c : ascii) : option Z :=
  if isdigit c then Some (code c - 48)
  else if in_range "a" "f" c then Some (code c - 87)
  else if in_range "A" "F" c then Some (code c - 55)
  else None.

(** What the conversion of [uuid_new] yields for the two characters of a
    byte: two digits give the byte they write; a digit followed by another
    character gives the digit alone; a white space or a sign followed by a
    digit gives that digit, negated modulo 256 after [-]; anything else
    gives 0. *)
Definition pair_value (c0 c1 : ascii) : Z :=
  match xdigit_value c0, xdigit_value c1 with
  | Some d0, Some d1 => 16 * d0 + d1
  | Some d0, None => d0
  | None, Some d1 =>
      if isspace c0 || Ascii.eqb c0 "+" then d1
      else if Ascii.eqb c0 "-" then (256 - d1) mod 256
      else 0
  | None, None => 0
  end.

(** The byte [uuid_new] stores for the characters at offsets [k] and
    [k + 1] of its argument. *)
Definition parsed_byte (s : string) (k : nat) : Z :=
  strtoul (String (char_at s k) (String (char_at s (S k)) (String NUL EmptyString)))
          16 mod 256.

(** The functions of the module that take a UUID reference. *)
Inductive uuid_operation : Type :=
| op_is_empty | op_is_equal | op_copy | op_128_to_16 | op_128_to_32
| op_to_string | op_is_base.

Definition ignore_value {A : Type} (c : checked A) : checked unit :=
  _ <- c ;; Done tt.

(** The call of an operation with an absent UUID reference, every other
    argument being valid. *)
Definition call_absent (op : uuid_operation)
  (other : bt_uuid_t) (m : uuid_string_t) (out : Z) : checked unit :=
  match op with
  | op_is_empty => ignore_value (Done (uuid_is_empty None))
  | op_is_equal => ignore_value (uuid_is_equal None (Some other))
  | op_copy => ignore_value (uuid_copy (Some other) None)
  | op_128_to_16 => ignore_value (uuid_128_to_16 None (Some out))
  | op_128_to_32 => ignore_value (uuid_128_to_32 None (Some out))
  | op_to_string => ignore_value (uuid_to_string None (Some m))
  | op_is_base => ignore_value (Done (uuid_is_base None))
  end.

Definition accepts_absent (op : uuid_operation) : Prop :=
  forall other m out, call_absent op other m out = Done tt.

(** The last sentence of the description of [uuid_is_empty], read over the
    operations above. *)
Definition is_empty_alone_accepts_absent : Prop :=
  forall op, accepts_absent op <-> op = op_is_empty.

(** "An invalid hex character parses to 0", read on the byte the character
    belongs to. *)
Definition invalid_hex_parses_to_zero : Prop :=
  forall s u i,
    passes_checks s ->
    (i < 16)%nat ->
    isxdigit (char_at s (hex_offset i)) = false \/
    isxdigit (char_at s (S (hex_offset i))) = false ->
    uuid_new (Some s) = Done (Some u) ->
    uu_at u i = 0.

Fixpoint no_nul (s : string) : bool :=
  match s with
  | EmptyString => true
  | String c r => negb (Ascii.eqb c NUL) && no_nul r
  end.

Definition all_chars : list ascii := map ascii_of_nat (seq 0 256).
Definition all_bytes : list Z := map Z.of_nat (seq 0 256).

Definition uuid0 : bt_uuid_t := {| uu := repeat 0 16 |}.
Definition uuid_1101 : bt_uuid_t :=
  {| uu := [0x00; 0x00; 0x11; 0x01; 0x00; 0x00; 0x10; 0x00; 0x80; 0x00; 0x00;
            0x80; 0x5f; 0x9b; 0x34; 0xfb] |}.

(** ** Exhaustive checks over characters and bytes *)

Lemma in_all_chars (c : ascii) : In c all_chars.
Proof.
  unfold all_chars. rewrite <- (ascii_nat_embedding c).
  apply in_map, in_seq. pose proof (nat_ascii_bounded c). lia.
Qed.

Lemma in_all_bytes (b : Z) : 0 <= b < 256 -> In b all_bytes.
Proof.
  intros Hb. unfold all_bytes. rewrite <- (Z2Nat.id b) by lia.
  apply in_map, in_seq. lia.
Qed.

Lemma forall_chars (P : ascii -> bool) :
  forallb P all_chars = true -> forall c, P c = true.
Proof.
  intros H c. rewrite forallb_forall in H. apply H, in_all_chars.
Qed.

Lemma forall_char_pairs (P : ascii -> ascii -> bool) :
  forallb (fun c0 => forallb (P c0) all_chars) all_chars = true ->
  forall c0 c1, P c0 c1 = true.
Proof.
  intros H c0 c1.
  apply (forall_chars (P c0)), (forall_chars _ H).
Qed.

Lemma forall_bytes (P : Z -> bool) :
  forallb P all_bytes = true -> forall b, 0 <= b < 256 -> P b = true.
Proof.
  intros H b Hb. rewrite forallb_forall in H. apply H, in_all_bytes, Hb.
Qed.

(** [%02x] of a byte is its hex pair. *)
Lemma fmt_02x_byte (b : Z) : 0 <= b < 256 -> fmt_02x b = hex_pair b.
Proof.
  intros Hb. apply String.eqb_eq.
  apply (forall_bytes (fun b => String.eqb (fmt_02x b) (hex_pair b)));
    [vm_compute; reflexivity | exact Hb].
Qed.

(** What [strtoul] with base 16 reads from a buffer of two characters. *)
Lemma strtoul_pair (c0 c1 : ascii) :
  strtoul (String c0 (String c1 (String NUL EmptyString))) 16 mod 256
  = pair_value c0 c1.
Proof.
  apply Z.eqb_eq.
  apply (forall_char_pairs
           (fun c0 c1 =>
              strtoul (String c0 (String c1 (String NUL EmptyString))) 16
                mod 256 =? pair_value c0 c1)).
  vm_compute; reflexivity.
Qed.

Lemma pair_value_hex_pair (b : Z) :
  0 <= b < 256 ->
  pair_value (hex_lower (b / 16)) (hex_lower (b mod 16)) = b.
Proof.
  intros Hb. apply Z.eqb_eq.
  apply (forall_bytes
           (fun b => pair_value (hex_lower (b / 16)) (hex_lower (b mod 16))
                     =? b));
    [vm_compute; reflexivity | exact Hb].
Qed.

Lemma hex_pair_no_nul (b : Z) : 0 <= b < 256 -> no_nul (hex_pair b) = true.
Proof.
  intros Hb.
  apply (forall_bytes (fun b => no_nul (hex_pair b)));
    [vm_compute; reflexivity | exact Hb].
Qed.

(** Formatting the byte read from two hexadecimal digits gives the two
    digits back in lower case. *)
Lemma hex_pair_pair_value (c0 c1 : ascii) :
  isxdigit c0 = true -> isxdigit c1 = true ->
  hex_pair (pair_value c0 c1)
  = String (tolower c0) (String (tolower c1) EmptyString).
Proof.
  intros H0 H1.
  pose proof
    (forall_char_pairs
       (fun c0 c1 =>
          negb (isxdigit c0 && isxdigit c1) ||
          String.eqb (hex_pair (pair_value c0 c1))
                     (String (tolower c0) (String (tolower c1) EmptyString))))
    as H.
  specialize (H ltac:(vm_compute; reflexivity) c0 c1).
  cbv beta in H. rewrite H0, H1 in H. apply String.eqb_eq, H.
Qed.

Lemma isxdigit_not_nul (c : ascii) :
  isxdigit c = true -> Ascii.eqb c NUL = false.
Proof.
  intros H.
  pose proof
    (forall_chars (fun c => negb (isxdigit c) || negb (Ascii.eqb c NUL))
       ltac:(vm_compute; reflexivity) c) as Hc.
  cbv beta in Hc. rewrite H in Hc. simpl in Hc. apply negb_true_iff, Hc.
Qed.

(** ** C strings *)

Lemma strlen_no_nul (s r : string) :
  no_nul s = true -> strlen (s ++ String NUL r) = String.length s.
Proof.
  induction s as [|c s IH]; simpl; intros H.
  - reflexivity.
  - apply andb_true_iff in H as [Hc Hs]. apply negb_true_iff in Hc.
    rewrite Hc, IH by exact Hs. reflexivity.
Qed.

Lemma c_str_no_nul (s r : string) :
  no_nul s = true -> c_str (s ++ String NUL r) = s.
Proof.
  induction s as [|c s IH]; simpl; intros H.
  - reflexivity.
  - apply andb_true_iff in H as [Hc Hs]. apply negb_true_iff in Hc.
    rewrite Hc, IH by exact Hs. reflexivity.
Qed.

Lemma no_nul_app (s t : string) :
  no_nul (s ++ t) = no_nul s && no_nul t.
Proof.
  induction s as [|c s IH]; simpl.
  - reflexivity.
  - rewrite IH, andb_assoc. reflexivity.
Qed.

(** ** [uuid_new] *)

(** The loop of [uuid_new] reads the pairs at the sixteen byte offsets. *)
Lemma uuid_new_loop_bytes (s : string) :
  uuid_new_loop sizeof_bt_uuid_t 0 0 s osi_calloc_uuid
  = {| uu := map (fun i => parsed_byte s (hex_offset i)) (seq 0 16) |}.
Proof.
  cbv - [strtoul char_at Z.modulo NUL]. reflexivity.
Qed.

Lemma uuid_new_unfold (s : string) :
  uuid_new (Some s) =
  if (strlen s <? 36)%nat then Done None
  else if negb (Ascii.eqb (char_at s 8) "-") ||
          negb (Ascii.eqb (char_at s 13) "-") ||
          negb (Ascii.eqb (char_at s 18) "-") ||
          negb (Ascii.eqb (char_at s 23) "-")
  then Done None
  else Done (Some {| uu := map (fun i => parsed_byte s (hex_offset i))
                               (seq 0 16) |}).
Proof.
  unfold uuid_new. cbn [CHECK_nonnull check_bind].
  rewrite uuid_new_loop_bytes. reflexivity.
Qed.

Lemma uuid_new_passes (s : string) :
  passes_checks s ->
  uuid_new (Some s)
  = Done (Some {| uu := map (fun i => parsed_byte s (hex_offset i))
                            (seq 0 16) |}).
Proof.
  intros (Hlen & H8 & H13 & H18 & H23).
  rewrite uuid_new_unfold, H8, H13, H18, H23.
  replace (strlen s <? 36)%nat with false
    by (symmetry; apply Nat.ltb_ge; exact Hlen).
  reflexivity.
Qed.

Lemma parsed_bytes_wf (s : string) :
  uuid_wf {| uu := map (fun i => parsed_byte s (hex_offset i)) (seq 0 16) |}.
Proof.
  split.
  - reflexivity.
  - apply Forall_forall. intros b Hb. cbn [uu] in Hb.
    apply in_map_iff in Hb as (i & <- & _).
    unfold parsed_byte. apply Z.mod_pos_bound. lia.
Qed.

(** ** [uuid_to_string] *)

(** Names the 16 bytes of a well-formed UUID and keeps their ranges. *)
Ltac explode_uuid u H :=
  let l := fresh "l" in
  let Hlen := fresh "Hlen" in
  let Hb := fresh "Hb" in
  destruct H as [Hlen Hb]; destruct u as [l]; cbn [uu] in Hlen, Hb;
  do 16 (destruct l as [|? l]; [discriminate Hlen|]);
  destruct l; [|discriminate Hlen]; clear Hlen;
  repeat match goal with
         | H : Forall _ (_ :: _) |- _ => inversion H; subst; clear H
         | H : Forall _ [] |- _ => clear H
         end.

(** Replaces the two digits of every byte by variables that keep what
    parsing and the NUL test need of them. *)
Ltac abstract_digits :=
  repeat match goal with
         | H : 0 <= ?b < 256 |- _ =>
             let Hv := fresh "Hv" in
             let Hn := fresh "Hn" in
             pose proof (pair_value_hex_pair b H) as Hv;
             pose proof (hex_pair_no_nul b H) as Hn;
             unfold hex_pair in Hn; cbn [no_nul] in Hn;
             rewrite andb_true_r in Hn;
             apply andb_true_iff in Hn as [?Hn ?Hn];
             clear H
         end;
  unfold hex_pair in *;
  repeat match goal with
         | |- context [hex_lower ?x] =>
             let h := fresh "h" in
             set (h := hex_lower x) in *; clearbody h
         end;
  repeat match goal with
         | H : negb _ = true |- _ => apply negb_true_iff in H
         end.

Lemma uuid_to_string_region (u : bt_uuid_t) (m : uuid_string_t) :
  uuid_wf u ->
  String.length m = UUID_WELL_FORMED_STRING_LEN_WITH_NULL ->
  uuid_to_string (Some u) (Some m)
  = Done (canonical_string u ++ String NUL EmptyString).
Proof.
  intros Hwf Hm. explode_uuid u Hwf.
  do 37 (destruct m as [|? m]; [discriminate|]).
  destruct m; [|discriminate]. clear Hm.
  unfold uuid_to_string, put_bytes, canonical_string.
  cbn [CHECK_nonnull check_bind seq Nat.sub fold_left uu firstn skipn hex_group].
  unfold put_02x, put_dash. cbn [uu_at uu nth].
  repeat match goal with
         | H : 0 <= ?b < 256 |- _ => rewrite (fmt_02x_byte b H); clear H
         end.
  unfold hex_pair.
  repeat match goal with
         | |- context [hex_lower ?x] => generalize (hex_lower x); intro
         end.
  vm_compute. reflexivity.
Qed.

Lemma canonical_string_no_nul (u : bt_uuid_t) :
  uuid_wf u -> no_nul (canonical_string u) = true.
Proof.
  intros Hwf. explode_uuid u Hwf.
  unfold canonical_string. cbn [uu firstn skipn hex_group].
  abstract_digits. cbn [append no_nul].
  repeat match goal with H : Ascii.eqb _ NUL = false |- _ => rewrite H; clear H end.
  reflexivity.
Qed.

Lemma canonical_string_length (u : bt_uuid_t) :
  uuid_wf u -> String.length (canonical_string u) = 36%nat.
Proof.
  intros Hwf. explode_uuid u Hwf. reflexivity.
Qed.

Lemma uuid_new_canonical (u : bt_uuid_t) (r : string) :
  uuid_wf u ->
  uuid_new (Some (canonical_string u ++ String NUL r)) = Done (Some u).
Proof.
  intros Hwf.
  rewrite uuid_new_passes.
  - explode_uuid u Hwf.
    unfold canonical_string. cbn [uu firstn skipn hex_group].
    abstract_digits.
    cbv [map seq hex_offset Nat.leb Nat.add Nat.mul parsed_byte char_at
         String.get append].
    rewrite !strtoul_pair.
    repeat match goal with H : pair_value _ _ = _ |- _ => rewrite H; clear H end.
    reflexivity.
  - unfold passes_checks.
    rewrite strlen_no_nul, canonical_string_length
      by auto using canonical_string_no_nul.
    split; [lia|].
    explode_uuid u Hwf. repeat split; reflexivity.
Qed.


(** ** [memcmp] and the base test *)

Lemma memcmp_zero_iff (n : nat) (a b : list Z) :
  memcmp a b n = 0 <-> forall i, (i < n)%nat -> nth i a 0 = nth i b 0.
Proof.
  revert a b. induction n as [|n IH]; intros a b; simpl.
  - split; [intros _ i Hi; lia | reflexivity].
  - destruct (Z.eqb_spec (hd 0 a) (hd 0 b)) as [E|N].
    + rewrite IH. split.
      * intros H [|i] Hi.
        -- destruct a, b; exact E.
        -- specialize (H i ltac:(lia)).
           destruct a, b; simpl in *; try exact H;
             destruct i; exact H.
      * intros H i Hi. specialize (H (S i) ltac:(lia)).
        destruct a, b; simpl in *; try exact H; destruct i; exact H.
    + split; [lia|].
      intros H. specialize (H O ltac:(lia)).
      destruct a, b; simpl in *; contradiction.
Qed.

Lemma uuid_is_base_loop_iff (u : bt_uuid_t) (idx : list nat) :
  uuid_is_base_loop u idx = true <->
  forall i, In i idx -> uu_at u i = uu_at base_uuid i.
Proof.
  induction idx as [|j idx IH]; simpl.
  - split; [intros _ i [] | reflexivity].
  - destruct (Z.eqb_spec (uu_at u j) (uu_at base_uuid j)) as [E|N]; simpl.
    + rewrite IH. split.
      * intros H i [<-|Hi]; [exact E | apply H, Hi].
      * intros H i Hi. apply H. right. exact Hi.
    + split; [discriminate|]. intros H. elim N. apply H. left. reflexivity.
Qed.

Lemma uuid_is_base_iff (u : bt_uuid_t) :
  uuid_is_base (Some u) = true <->
  forall i, (4 <= i < 16)%nat -> uu_at u i = uu_at base_uuid i.
Proof.
  unfold uuid_is_base. rewrite uuid_is_base_loop_iff.
  split; intros H i Hi; apply H; [apply in_seq | apply in_seq in Hi]; lia.
Qed.

Lemma uuid_is_empty_iff (u : bt_uuid_t) :
  uuid_is_empty (Some u) = true <->
  forall i, (i < 16)%nat -> uu_at u i = 0.
Proof.
  unfold uuid_is_empty. rewrite Z.eqb_eq, memcmp_zero_iff.
  split; intros H i Hi; specialize (H i Hi); unfold uu_at in *.
  - rewrite H. unfold sizeof_bt_uuid_t in Hi.
    do 16 (destruct i as [|i]; [reflexivity|]). lia.
  - rewrite H. unfold sizeof_bt_uuid_t in Hi.
    do 16 (destruct i as [|i]; [reflexivity|]). lia.
Qed.

Lemma zero_bytes_not_base (u : bt_uuid_t) :
  uuid_is_empty (Some u) = true -> uuid_is_base (Some u) = false.
Proof.
  intros He. apply not_true_is_false. intros Hb.
  rewrite uuid_is_empty_iff in He. rewrite uuid_is_base_iff in Hb.
  specialize (He 6%nat ltac:(lia)). specialize (Hb 6%nat ltac:(lia)).
  rewrite He in Hb. discriminate Hb.
Qed.

(** ** Narrowing arithmetic *)

Lemma narrow16_value (b2 b3 : Z) :
  0 <= b2 < 256 -> 0 <= b3 < 256 ->
  to_uint16 (to_int (to_int (Z.shiftl b2 8) + b3)) = 256 * b2 + b3.
Proof.
  intros H2 H3. unfold to_uint16, to_int.
  rewrite Z.shiftl_mul_pow2 by lia.
  change (2 ^ 8) with 256. change (2 ^ 31) with 2147483648.
  change (2 ^ 32) with 4294967296. change (2 ^ 16) with 65536.
  Z.to_euclidean_division_equations. lia.
Qed.

Lemma narrow32_value (b0 b1 b2 b3 : Z) :
  0 <= b0 < 256 -> 0 <= b1 < 256 -> 0 <= b2 < 256 -> 0 <= b3 < 256 ->
  to_uint32
    (to_int
       (to_int
          (to_int (to_int (Z.shiftl b0 24) + to_int (Z.shiftl b1 16)) +
           to_int (Z.shiftl b2 8)) + b3))
  = ((b0 * 256 + b1) * 256 + b2) * 256 + b3.
Proof.
  intros H0 H1 H2 H3. unfold to_uint32, to_int.
  rewrite !Z.shiftl_mul_pow2 by lia.
  change (2 ^ 8) with 256. change (2 ^ 16) with 65536.
  change (2 ^ 24) with 16777216. change (2 ^ 31) with 2147483648.
  change (2 ^ 32) with 4294967296.
  Z.to_euclidean_division_equations. lia.
Qed.

Lemma uuid_wf_byte (u : bt_uuid_t) (i : nat) :
  uuid_wf u -> 0 <= uu_at u i < 256.
Proof.
  intros [Hlen Hb]. unfold uu_at.
  destruct (Nat.lt_ge_cases i (List.length (uu u))) as [Hi|Hi].
  - rewrite Forall_forall in Hb. apply Hb, nth_In, Hi.
  - rewrite nth_overflow by exact Hi. lia.
Qed.


Lemma memcmp_refl (n : nat) (a : list Z) : memcmp a a n = 0.
Proof.
  revert a. induction n as [|n IH]; intros a; simpl.
  - reflexivity.
  - rewrite Z.eqb_refl. apply IH.
Qed.

Lemma uuid0_wf : uuid_wf uuid0.
Proof.
  split; [reflexivity|]. unfold uuid0. cbn [uu repeat].
  repeat constructor; lia.
Qed.

Lemma uuid_1101_wf : uuid_wf uuid_1101.
Proof.
  split; [reflexivity|]. unfold uuid_1101. cbn [uu].
  repeat constructor; lia.
Qed.

(** ** Formatting *)

(** C7. For a valid UUID and a 37-byte output region, [uuid_to_string]
    leaves in the region a C string of exactly 36 characters, which is the
    canonical string of the UUID: groups of 4, 2, 2, 2 and 6 bytes joined
    by dashes.  The dashes are at offsets 8, 13, 18 and 23, and byte [i] is
    written at its offset as two lowercase hexadecimal digits, the high
    nibble first (zero-padded). *)
Theorem uuid_to_string_canonical_form (u : bt_uuid_t) (m : uuid_string_t) :
  uuid_wf u ->
  String.length m = UUID_WELL_FORMED_STRING_LEN_WITH_NULL ->
  exists str,
    uuid_to_string (Some u) (Some m) = Done str /\
    strlen str = 36%nat /\
    c_str str = canonical_string u /\
    (forall k, dash_offset k = true -> char_at str k = "-"%char) /\
    (forall i, (i < 16)%nat ->
       char_at str (hex_offset i) = hex_lower (uu_at u i / 16) /\
       char_at str (S (hex_offset i)) = hex_lower (uu_at u i mod 16)).
Proof.
  intros Hwf Hm. exists (canonical_string u ++ String NUL EmptyString).
  split; [apply uuid_to_string_region; assumption|].
  split; [rewrite strlen_no_nul, canonical_string_length
            by auto using canonical_string_no_nul; reflexivity|].
  split; [apply c_str_no_nul, canonical_string_no_nul, Hwf|].
  explode_uuid u Hwf.
  unfold canonical_string. cbn [uu firstn skipn hex_group hex_pair append].
  split.
  - intros k Hk.
    do 24 (destruct k as [|k]; [try discriminate Hk; reflexivity|]).
    discriminate Hk.
  - intros i Hi.
    do 16 (destruct i as [|i]; [split; reflexivity|]).
    lia.
Qed.

Lemma uuid_to_string_canonical_form_witness :
  exists str,
    uuid_to_string (Some uuid_1101) (Some uuid_string_new) = Done str /\
    c_str str = "00001101-0000-1000-8000-00805f9b34fb".
Proof.
  destruct (uuid_to_string_canonical_form uuid_1101 uuid_string_new
              uuid_1101_wf eq_refl) as (str & Hs & _ & Hc & _).
  exists str. split; [exact Hs|]. rewrite Hc. reflexivity.
Defined.

(** ** Round trips *)

(** C1. Formatting a valid UUID with [uuid_to_string] and parsing the
    string with [uuid_new] yields a UUID equal to it, byte for byte (as
    [uuid_is_equal] decides it). *)
Theorem uuid_new_of_uuid_to_string (u : bt_uuid_t) (m : uuid_string_t) :
  uuid_wf u ->
  String.length m = UUID_WELL_FORMED_STRING_LEN_WITH_NULL ->
  exists str u',
    uuid_to_string (Some u) (Some m) = Done str /\
    (data <- uuid_string_data (Some str) ;; uuid_new (Some data))
    = Done (Some u') /\
    u' = u /\
    uuid_is_equal (Some u') (Some u) = Done true.
Proof.
  intros Hwf Hm.
  exists (canonical_string u ++ String NUL EmptyString), u.
  split; [apply uuid_to_string_region; assumption|].
  split; [|split; [reflexivity|]].
  - cbn [uuid_string_data CHECK_nonnull check_bind].
    apply uuid_new_canonical, Hwf.
  - cbn [uuid_is_equal CHECK_nonnull check_bind].
    rewrite memcmp_refl. reflexivity.
Qed.

Lemma uuid_new_of_uuid_to_string_witness :
  exists str u',
    uuid_to_string (Some uuid_1101) (Some uuid_string_new) = Done str /\
    (data <- uuid_string_data (Some str) ;; uuid_new (Some data))
    = Done (Some u') /\
    u' = uuid_1101 /\
    uuid_is_equal (Some u') (Some uuid_1101) = Done true.
Proof.
  exact (uuid_new_of_uuid_to_string uuid_1101 uuid_string_new
           uuid_1101_wf eq_refl).
Defined.


Lemma parsed_byte_pair (s : string) (k : nat) :
  parsed_byte s k = pair_value (char_at s k) (char_at s (S k)).
Proof. apply strtoul_pair. Qed.

Lemma strlen_eq_length (s : string) :
  no_nul s = true -> strlen s = String.length s.
Proof.
  induction s as [|c s IH]; simpl; intros H; [reflexivity|].
  apply andb_true_iff in H as [Hc Hs]. apply negb_true_iff in Hc.
  rewrite Hc, IH by exact Hs. reflexivity.
Qed.

(** Names the 36 characters of a string of the canonical pattern: the
    dashes are substituted, the other characters keep [isxdigit]. *)
Ltac explode_pattern s H :=
  let Hlen := fresh "Hlen" in
  let Hall := fresh "Hall" in
  apply andb_true_iff in H as [Hlen Hall];
  apply Nat.eqb_eq in Hlen;
  do 36 (destruct s as [|? s]; [discriminate Hlen|]);
  destruct s; [|discriminate Hlen]; clear Hlen;
  cbn [forallb seq dash_offset char_at String.get] in Hall;
  repeat match type of Hall with
         | (_ && _ = true) =>
             let Hc := fresh "Hc" in
             apply andb_true_iff in Hall as [Hc Hall]
         end;
  clear Hall;
  repeat match goal with
         | H : Ascii.eqb _ "-" = true |- _ => apply Ascii.eqb_eq in H; subst
         end.

Lemma canonical_pattern_no_nul (s : string) :
  canonical_pattern s = true -> no_nul s = true.
Proof.
  intros H. explode_pattern s H.
  repeat match goal with
         | H : isxdigit _ = true |- _ => apply isxdigit_not_nul in H
         end.
  cbn [no_nul].
  repeat match goal with
         | H : Ascii.eqb _ NUL = false |- _ => rewrite H; clear H
         end.
  reflexivity.
Qed.

Lemma canonical_pattern_passes (s : string) :
  canonical_pattern s = true -> passes_checks s.
Proof.
  intros H. unfold passes_checks.
  rewrite strlen_eq_length by (apply canonical_pattern_no_nul, H).
  explode_pattern s H. cbn [String.length]. repeat split. lia.
Qed.

Lemma canonical_string_parsed (s : string) :
  canonical_pattern s = true ->
  canonical_string
    {| uu := map (fun i => parsed_byte s (hex_offset i)) (seq 0 16) |}
  = lowercase s.
Proof.
  intros H. explode_pattern s H.
  cbv [map seq hex_offset Nat.leb Nat.add Nat.mul canonical_string uu
       firstn skipn hex_group].
  rewrite !parsed_byte_pair.
  cbn [char_at String.get].
  rewrite !hex_pair_pair_value by assumption.
  reflexivity.
Qed.

(** C2. A 36-character string of the canonical pattern is accepted by
    [uuid_new], and formatting the UUID it yields with [uuid_to_string]
    gives the string back with its hexadecimal digits in lower case. *)
Theorem uuid_to_string_of_uuid_new (s : string) (m : uuid_string_t) :
  canonical_pattern s = true ->
  String.length m = UUID_WELL_FORMED_STRING_LEN_WITH_NULL ->
  exists u str,
    uuid_new (Some s) = Done (Some u) /\
    uuid_to_string (Some u) (Some m) = Done str /\
    c_str str = lowercase s.
Proof.
  intros Hs Hm.
  eexists. eexists. split; [|split].
  - apply uuid_new_passes, canonical_pattern_passes, Hs.
  - apply uuid_to_string_region; [apply parsed_bytes_wf | exact Hm].
  - rewrite c_str_no_nul by apply canonical_string_no_nul, parsed_bytes_wf.
    apply canonical_string_parsed, Hs.
Qed.

Lemma uuid_to_string_of_uuid_new_witness :
  exists u str,
    uuid_new (Some "0000180D-0000-1000-8000-00805F9B34FB") = Done (Some u) /\
    uuid_to_string (Some u) (Some uuid_string_new) = Done str /\
    c_str str = "0000180d-0000-1000-8000-00805f9b34fb".
Proof.
  exact (uuid_to_string_of_uuid_new "0000180D-0000-1000-8000-00805F9B34FB"
           uuid_string_new eq_refl eq_refl).
Defined.

(** ** Malformed input *)

(** C3. [uuid_new] returns NULL exactly when the argument has fewer than 36
    characters or one of the offsets 8, 13, 18, 23 holds another character
    than a dash; a call never aborts on a string, and what is returned
    otherwise is a complete UUID: 16 bytes, each below 256. *)
Theorem uuid_new_failure_iff (s : string) :
  (uuid_new (Some s) = Done None <->
   (strlen s < 36)%nat \/
   char_at s 8 <> "-"%char \/ char_at s 13 <> "-"%char \/
   char_at s 18 <> "-"%char \/ char_at s 23 <> "-"%char) /\
  (uuid_new (Some s) = Done None \/
   exists u, uuid_new (Some s) = Done (Some u) /\ uuid_wf u).
Proof.
  rewrite uuid_new_unfold.
  destruct (Nat.ltb_spec (strlen s) 36) as [Hlt|Hge].
  { split; [split; auto | auto]. }
  destruct (Ascii.eqb_spec (char_at s 8) "-") as [E8|N8];
    [|split; [split; auto | auto]].
  destruct (Ascii.eqb_spec (char_at s 13) "-") as [E13|N13];
    [|split; [split; auto | auto]].
  destruct (Ascii.eqb_spec (char_at s 18) "-") as [E18|N18];
    [|split; [split; auto | auto]].
  destruct (Ascii.eqb_spec (char_at s 23) "-") as [E23|N23];
    [|split; [split; auto 6 | auto]].
  cbn [negb orb]. split.
  - split; [discriminate|].
    intros [H|[H|[H|[H|H]]]]; [lia | contradiction ..].
  - right. eexists. split; [reflexivity | apply parsed_bytes_wf].
Qed.


Lemma xdigit_value_none (c : ascii) :
  isxdigit c = false -> xdigit_value c = None.
Proof.
  intros H.
  pose proof
    (forall_chars
       (fun c => isxdigit c ||
                 match xdigit_value c with None => true | Some _ => false end)
       ltac:(vm_compute; reflexivity) c) as Hc.
  cbv beta in Hc. rewrite H in Hc. simpl in Hc.
  destruct (xdigit_value c); [discriminate Hc | reflexivity].
Qed.

Lemma uu_at_parsed (s : string) (i : nat) :
  (i < 16)%nat ->
  uu_at {| uu := map (fun i => parsed_byte s (hex_offset i)) (seq 0 16) |} i
  = pair_value (char_at s (hex_offset i)) (char_at s (S (hex_offset i))).
Proof.
  intros Hi. rewrite <- parsed_byte_pair. unfold uu_at. cbn [uu].
  do 16 (destruct i as [|i]; [reflexivity|]). lia.
Qed.

(** ** Base detection *)

(** C6. [uuid_is_base] holds of a UUID exactly when its bytes 4 to 15 are
    those of [base_uuid]; two UUIDs with the same bytes 4 to 15 get the
    same answer whatever their bytes 0 to 3; the answer is false for NULL. *)
Theorem uuid_is_base_bytes_4_to_15 :
  (forall u,
     uuid_is_base (Some u) = true <->
     forall i, (4 <= i < 16)%nat -> uu_at u i = uu_at base_uuid i) /\
  (forall u v,
     (forall i, (4 <= i < 16)%nat -> uu_at u i = uu_at v i) ->
     uuid_is_base (Some u) = uuid_is_base (Some v)) /\
  uuid_is_base None = false.
Proof.
  split; [exact uuid_is_base_iff|]. split; [|reflexivity].
  intros u v Huv. apply eq_true_iff_eq. rewrite !uuid_is_base_iff.
  split; intros H i Hi.
  - rewrite <- Huv by exact Hi. apply H, Hi.
  - rewrite Huv by exact Hi. apply H, Hi.
Qed.

(** ** Narrowing *)

(** C4. On a base-derived UUID [uuid_128_to_16] returns true and stores the
    16-bit value with byte 2 as high byte and byte 3 as low byte, and
    [uuid_128_to_32] returns true and stores the big-endian value of bytes
    0 to 3; parsing "00001101-0000-1000-8000-00805f9b34fb" and narrowing to
    16 bits gives 0x1101. *)
Theorem uuid_128_to_16_32_value (u : bt_uuid_t) (o16 o32 : Z) :
  uuid_wf u ->
  uuid_is_base (Some u) = true ->
  uuid_128_to_16 (Some u) (Some o16)
  = Done (true, 256 * uu_at u 2 + uu_at u 3) /\
  uuid_128_to_32 (Some u) (Some o32)
  = Done (true,
          ((uu_at u 0 * 256 + uu_at u 1) * 256 + uu_at u 2) * 256 + uu_at u 3)
  /\
  (r <- uuid_new (Some "00001101-0000-1000-8000-00805f9b34fb") ;;
   uuid_128_to_16 r (Some o16)) = Done (true, 0x1101).
Proof.
  intros Hwf Hbase.
  unfold uuid_128_to_16, uuid_128_to_32.
  cbn [CHECK_nonnull check_bind]. rewrite Hbase. cbn [negb].
  rewrite narrow16_value, narrow32_value by (apply uuid_wf_byte, Hwf).
  repeat split.
Qed.

Lemma uuid_128_to_16_32_value_witness :
  uuid_128_to_16 (Some uuid_1101) (Some 0) = Done (true, 0x1101) /\
  uuid_128_to_32 (Some uuid_1101) (Some 0) = Done (true, 0x1101).
Proof.
  destruct (uuid_128_to_16_32_value uuid_1101 0 0 uuid_1101_wf eq_refl)
    as (H16 & H32 & _).
  split; [exact H16 | exact H32].
Defined.

(** C5. [uuid_128_to_16] and [uuid_128_to_32] return false exactly when
    [uuid_is_base] is false of the UUID, and then the location they were
    given holds the value it held before the call. *)
Theorem uuid_128_to_16_32_failure (u : bt_uuid_t) (o16 o32 : Z) :
  (exists ok out,
     uuid_128_to_16 (Some u) (Some o16) = Done (ok, out) /\
     (ok = false <-> uuid_is_base (Some u) = false) /\
     (ok = false -> out = o16)) /\
  (exists ok out,
     uuid_128_to_32 (Some u) (Some o32) = Done (ok, out) /\
     (ok = false <-> uuid_is_base (Some u) = false) /\
     (ok = false -> out = o32)).
Proof.
  unfold uuid_128_to_16, uuid_128_to_32.
  cbn [CHECK_nonnull check_bind].
  destruct (uuid_is_base (Some u)); cbn [negb];
    split; eexists; eexists; (split; [reflexivity|]);
    split; try tauto; try discriminate; reflexivity.
Qed.

(** C10. A UUID that [uuid_is_empty] holds of is not base-derived, so that
    [uuid_128_to_16] and [uuid_128_to_32] both return false on it and
    leave their output location as it was. *)
Theorem uuid_is_empty_not_base (u : bt_uuid_t) (o16 o32 : Z) :
  uuid_is_empty (Some u) = true ->
  uuid_is_base (Some u) = false /\
  uuid_128_to_16 (Some u) (Some o16) = Done (false, o16) /\
  uuid_128_to_32 (Some u) (Some o32) = Done (false, o32).
Proof.
  intros He. apply zero_bytes_not_base in He.
  unfold uuid_128_to_16, uuid_128_to_32.
  cbn [CHECK_nonnull check_bind]. rewrite He. repeat split.
Qed.

Lemma uuid_is_empty_not_base_witness :
  uuid_is_empty (Some uuid0) = true /\
  uuid_is_base (Some uuid0) = false /\
  uuid_128_to_16 (Some uuid0) (Some 7) = Done (false, 7) /\
  uuid_128_to_32 (Some uuid0) (Some 9) = Done (false, 9).
Proof.
  split; [reflexivity|].
  exact (uuid_is_empty_not_base uuid0 7 9 eq_refl).
Defined.

(** ** Emptiness *)

(** C8, as the code has it. [uuid_is_empty] is true for NULL and for a UUID
    whose 16 bytes are zero, false for a UUID with a non-zero byte.  Of the
    operations that take a UUID reference, those that accept NULL are
    [uuid_is_empty] and [uuid_is_base], which answers false; the others
    abort on it. *)
Theorem uuid_is_empty_spec :
  uuid_is_empty None = true /\
  (forall u,
     uuid_is_empty (Some u) = true <->
     forall i, (i < 16)%nat -> uu_at u i = 0) /\
  (forall u i,
     (i < 16)%nat -> uu_at u i <> 0 -> uuid_is_empty (Some u) = false) /\
  (forall op,
     accepts_absent op <-> op = op_is_empty \/ op = op_is_base) /\
  uuid_is_base None = false /\
  (forall v, uuid_is_equal None v = Abort) /\
  (forall v, uuid_is_equal v None = Abort) /\
  (forall v, uuid_copy None v = Abort) /\
  (forall v, uuid_copy v None = Abort) /\
  (forall o, uuid_128_to_16 None o = Abort) /\
  (forall o, uuid_128_to_32 None o = Abort) /\
  (forall m, uuid_to_string None m = Abort).
Proof.
  split; [reflexivity|]. split; [exact uuid_is_empty_iff|].
  split.
  { intros u i Hi Hne. apply not_true_is_false. intros He.
    rewrite uuid_is_empty_iff in He. exact (Hne (He i Hi)). }
  split.
  { intros op. unfold accepts_absent. split.
    - intros H. specialize (H uuid0 EmptyString 0).
      destruct op; try discriminate H; auto.
    - intros [->| ->]; reflexivity. }
  split; [reflexivity|].
  repeat split; try reflexivity; intros [v|]; reflexivity.
Qed.

(** C8 as stated fails: [uuid_is_empty] is not the only operation that
    accepts an absent reference, [uuid_is_base] accepts one too. *)
Lemma uuid_is_empty_not_alone : ~ is_empty_alone_accepts_absent.
Proof.
  intros H. specialize (H op_is_base). destruct H as [H _].
  assert (Ha : accepts_absent op_is_base) by (intros ? ? ?; reflexivity).
  discriminate (H Ha).
Qed.

(** ** Characters that are not hexadecimal digits *)

(** C9, as the code has it. A string that passes the length and dash
    checks is parsed whatever its other characters are: [uuid_new] returns
    a complete UUID whose byte [i] is what [strtoul] reads from the two
    characters at the offset of byte [i].  That byte is 0 when neither
    character is a hexadecimal digit, and when the first is neither a
    hexadecimal digit, white space nor a sign; it is the value of the first
    character when that one is a digit and the second is not. *)
Theorem uuid_new_lenient (s : string) :
  passes_checks s ->
  exists u,
    uuid_new (Some s) = Done (Some u) /\
    uuid_wf u /\
    forall i, (i < 16)%nat ->
      let c0 := char_at s (hex_offset i) in
      let c1 := char_at s (S (hex_offset i)) in
      uu_at u i = pair_value c0 c1 /\
      (isxdigit c0 = false -> isxdigit c1 = false -> uu_at u i = 0) /\
      (isxdigit c0 = false -> isspace c0 = false ->
       c0 <> "+"%char -> c0 <> "-"%char -> uu_at u i = 0) /\
      (forall d0, xdigit_value c0 = Some d0 -> isxdigit c1 = false ->
                  uu_at u i = d0).
Proof.
  intros Hs. eexists. split; [apply uuid_new_passes, Hs|].
  split; [apply parsed_bytes_wf|].
  intros i Hi c0 c1. rewrite uu_at_parsed by exact Hi. fold c0 c1.
  split; [reflexivity|]. unfold pair_value. split; [|split].
  - intros H0 H1. rewrite (xdigit_value_none c0 H0), (xdigit_value_none c1 H1).
    reflexivity.
  - intros H0 Hsp Hplus Hminus. rewrite (xdigit_value_none c0 H0), Hsp.
    apply Ascii.eqb_neq in Hplus, Hminus. rewrite Hplus, Hminus.
    destruct (xdigit_value c1); reflexivity.
  - intros d0 H0 H1. rewrite H0, (xdigit_value_none c1 H1). reflexivity.
Qed.

Lemma uuid_new_lenient_witness :
  exists u,
    uuid_new (Some "zz-1 f+A-0x1g-*800-#&00-00805f9b34fbtail") = Done (Some u) /\
    uu u = [0; 255; 15; 10; 0; 1; 0; 0; 0; 0; 0; 128; 95; 155; 52; 251].
Proof.
  assert (Hp : passes_checks "zz-1 f+A-0x1g-*800-#&00-00805f9b34fbtail")
    by (unfold passes_checks; repeat split; vm_compute; lia).
  destruct (uuid_new_lenient _ Hp) as (u & Hu & _).
  exists u. split; [exact Hu|].
  vm_compute in Hu. injection Hu as <-. reflexivity.
Defined.

(** C9 as stated fails: in "1g001101-0000-1000-8000-00805f9b34fb" the
    character [g] of the first byte is no hexadecimal digit and the byte
    parses to 1, the value of the digit before it; in
    "-1001101-0000-1000-8000-00805f9b34fb" the first byte starts with a
    sign and parses to 255. *)
Lemma invalid_hex_not_always_zero :
  ~ invalid_hex_parses_to_zero /\
  uuid_new (Some "1g001101-0000-1000-8000-00805f9b34fb")
  = Done (Some {| uu := [1; 0; 17; 1; 0; 0; 16; 0; 128; 0; 0; 128; 95; 155;
                         52; 251] |}) /\
  uuid_new (Some "-1001101-0000-1000-8000-00805f9b34fb")
  = Done (Some {| uu := [255; 0; 17; 1; 0; 0; 16; 0; 128; 0; 0; 128; 95; 155;
                         52; 251] |}).
Proof.
  split; [|split; reflexivity].
  intros H.
  specialize (H "1g001101-0000-1000-8000-00805f9b34fb"
                {| uu := [1; 0; 0x11; 0x01; 0x00; 0x00; 0x10; 0x00; 0x80;
                          0x00; 0x00; 0x80; 0x5f; 0x9b; 0x34; 0xfb] |} O).
  assert (Hp : passes_checks "1g001101-0000-1000-8000-00805f9b34fb")
    by (unfold passes_checks; repeat split; vm_compute; lia).
  specialize (H Hp ltac:(lia) ltac:(right; reflexivity) eq_refl).
  discriminate H.
Qed.


(** ** Further properties: equality and copy *)

Lemma uuid_ext (a b : bt_uuid_t) :
  uuid_wf a -> uuid_wf b ->
  (forall i, (i < 16)%nat -> uu_at a i = uu_at b i) -> a = b.
Proof.
  intros [La _] [Lb _] H. destruct a as [la], b as [lb]. cbn [uu] in *.
  f_equal. apply (nth_ext la lb 0 0); [congruence|].
  intros i Hi. apply H. lia.
Qed.

(** X1. On two valid UUIDs [uuid_is_equal] returns normally, and it
    answers true exactly when the two hold the same 16 bytes. *)
Theorem uuid_is_equal_iff (a b : bt_uuid_t) :
  uuid_wf a -> uuid_wf b ->
  exists r,
    uuid_is_equal (Some a) (Some b) = Done r /\ (r = true <-> a = b).
Proof.
  intros Ha Hb. eexists. split; [reflexivity|].
  rewrite Z.eqb_eq, memcmp_zero_iff. split.
  - intros H. apply uuid_ext; assumption.
  - intros -> i _. reflexivity.
Qed.

Lemma uuid_is_equal_iff_witness :
  exists r,
    uuid_is_equal (Some uuid_1101) (Some uuid0) = Done r /\
    (r = true <-> uuid_1101 = uuid0).
Proof.
  exact (uuid_is_equal_iff uuid_1101 uuid0 uuid_1101_wf uuid0_wf).
Defined.

(** X2. [uuid_copy] between two valid UUIDs leaves in the destination
    exactly the bytes of the source, whatever the destination held, so
    that [uuid_is_equal] of the destination and the source is then true. *)
Theorem uuid_copy_is_source (dest src : bt_uuid_t) :
  uuid_wf dest -> uuid_wf src ->
  uuid_copy (Some dest) (Some src) = Done src /\
  (d <- uuid_copy (Some dest) (Some src) ;; uuid_is_equal (Some d) (Some src))
  = Done true.
Proof.
  intros [Ld _] [Ls _].
  assert (E : uuid_copy (Some dest) (Some src) = Done src).
  { unfold uuid_copy, memcpy, sizeof_bt_uuid_t.
    cbn [CHECK_nonnull check_bind].
    rewrite firstn_all2, skipn_all2, app_nil_r by lia.
    destruct src; reflexivity. }
  split; [exact E|]. rewrite E. cbn [check_bind uuid_is_equal CHECK_nonnull].
  rewrite memcmp_refl. reflexivity.
Qed.

Lemma uuid_copy_is_source_witness :
  uuid_copy (Some uuid0) (Some uuid_1101) = Done uuid_1101 /\
  (d <- uuid_copy (Some uuid0) (Some uuid_1101) ;;
   uuid_is_equal (Some d) (Some uuid_1101)) = Done true.
Proof.
  exact (uuid_copy_is_source uuid0 uuid_1101 uuid0_wf uuid_1101_wf).
Defined.

(** ** Further properties: formatting *)

(** X3. [uuid_to_string] overwrites the first 37 bytes of the region it is
    given with the canonical string and its terminator, whatever they
    held, and leaves every byte after them as it was. *)
Theorem uuid_to_string_writes_37 (u : bt_uuid_t) (pre tail : string) :
  uuid_wf u ->
  String.length pre = UUID_WELL_FORMED_STRING_LEN_WITH_NULL ->
  uuid_to_string (Some u) (Some (pre ++ tail))
  = Done (canonical_string u ++ String NUL tail).
Proof.
  intros Hwf Hm. explode_uuid u Hwf.
  do 37 (destruct pre as [|? pre]; [discriminate|]).
  destruct pre; [|discriminate]. clear Hm.
  unfold uuid_to_string, put_bytes, canonical_string.
  cbn [CHECK_nonnull check_bind seq Nat.sub fold_left uu firstn skipn
       hex_group].
  unfold put_02x, put_dash. cbn [uu_at uu nth].
  repeat match goal with
         | H : 0 <= ?b < 256 |- _ => rewrite (fmt_02x_byte b H); clear H
         end.
  unfold hex_pair.
  repeat match goal with
         | |- context [hex_lower ?x] => generalize (hex_lower x); intro
         end.
  vm_compute. reflexivity.
Qed.

Lemma uuid_to_string_writes_37_witness :
  uuid_to_string (Some uuid_1101)
    (Some ("0123456789012345678901234567890123456" ++ "rest"))
  = Done (canonical_string uuid_1101 ++ String NUL "rest").
Proof.
  exact (uuid_to_string_writes_37 uuid_1101
           "0123456789012345678901234567890123456" "rest"
           uuid_1101_wf eq_refl).
Defined.

(** X4. [uuid_to_string] is injective: two valid UUIDs that leave the same
    C string in their regions are the same UUID. *)
Theorem uuid_to_string_injective (u v : bt_uuid_t) (m m' str str' : string) :
  uuid_wf u -> uuid_wf v ->
  String.length m = UUID_WELL_FORMED_STRING_LEN_WITH_NULL ->
  String.length m' = UUID_WELL_FORMED_STRING_LEN_WITH_NULL ->
  uuid_to_string (Some u) (Some m) = Done str ->
  uuid_to_string (Some v) (Some m') = Done str' ->
  c_str str = c_str str' ->
  u = v.
Proof.
  intros Hu Hv Hm Hm' Es Es' Hc.
  rewrite uuid_to_string_region in Es, Es' by assumption.
  injection Es as <-. injection Es' as <-.
  rewrite !c_str_no_nul in Hc by (apply canonical_string_no_nul; assumption).
  pose proof (uuid_new_canonical u EmptyString Hu) as Pu.
  pose proof (uuid_new_canonical v EmptyString Hv) as Pv.
  rewrite Hc in Pu. rewrite Pu in Pv. injection Pv as ->. reflexivity.
Qed.

Lemma uuid_to_string_injective_witness : uuid_1101 = uuid_1101.
Proof.
  exact (uuid_to_string_injective uuid_1101 uuid_1101
           uuid_string_new "0123456789012345678901234567890123456"
           _ _ uuid_1101_wf uuid_1101_wf eq_refl eq_refl
           eq_refl eq_refl eq_refl).
Defined.

(** X5. The pattern of use of the module: a region from
    [uuid_string_new], filled by [uuid_to_string] and read through
    [uuid_string_data], holds the canonical string of the UUID, 36
    characters, with its terminator inside the 37 bytes allocated. *)
Theorem uuid_string_new_to_string_data (u : bt_uuid_t) :
  uuid_wf u ->
  exists data,
    (str <- uuid_to_string (Some u) (Some uuid_string_new) ;;
     uuid_string_data (Some str)) = Done data /\
    String.length data = String.length uuid_string_new /\
    c_str data = canonical_string u /\
    strlen data = 36%nat /\
    char_at data 36 = NUL.
Proof.
  intros Hwf.
  exists (canonical_string u ++ String NUL EmptyString).
  rewrite uuid_to_string_region by (exact Hwf || reflexivity).
  split; [reflexivity|].
  split.
  { pose proof (canonical_string_length u Hwf) as L.
    clear Hwf. revert L. generalize (canonical_string u). intros s L.
    do 36 (destruct s as [|? s]; [discriminate|]).
    destruct s; [reflexivity | discriminate]. }
  split; [apply c_str_no_nul, canonical_string_no_nul, Hwf|].
  split; [rewrite strlen_no_nul, canonical_string_length
            by auto using canonical_string_no_nul; reflexivity|].
  pose proof (canonical_string_length u Hwf) as L.
  clear Hwf. revert L. generalize (canonical_string u). intros s L.
  do 36 (destruct s as [|? s]; [discriminate|]).
  destruct s; [reflexivity | discriminate].
Qed.

Lemma uuid_string_new_to_string_data_witness :
  exists data,
    (str <- uuid_to_string (Some base_uuid) (Some uuid_string_new) ;;
     uuid_string_data (Some str)) = Done data /\
    c_str data = "00000000-0000-1000-8000-00805f9b34fb".
Proof.
  assert (Hb : uuid_wf base_uuid)
    by (split; [reflexivity | cbn [uu base_uuid]; repeat constructor; lia]).
  destruct (uuid_string_new_to_string_data base_uuid Hb)
    as (data & Hd & _ & Hc & _).
  exists data. split; [exact Hd|]. rewrite Hc. reflexivity.
Defined.


(** ** Further properties: parsing *)

Lemma char_at_cons (c : ascii) (s : string) (k : nat) :
  char_at (String c s) (S k) = char_at s k.
Proof. reflexivity. Qed.

Lemma strlen_ge_iff (s : string) (n : nat) :
  (n <= strlen s)%nat <-> forall k, (k < n)%nat -> char_at s k <> NUL.
Proof.
  revert n. induction s as [|c s IH]; intros n.
  - simpl. split.
    + intros Hn k Hk. lia.
    + intros H. destruct n; [lia|]. elim (H O); [lia | reflexivity].
  - cbn [strlen]. destruct (Ascii.eqb_spec c NUL) as [E|N].
    + split.
      * intros Hn k Hk. lia.
      * intros H. destruct n; [lia|]. elim (H O); [lia | exact E].
    + destruct n as [|n]; [split; [intros _ k Hk; lia | lia]|].
      rewrite <- Nat.succ_le_mono, IH. split.
      * intros H [|k] Hk; [exact N | rewrite char_at_cons; apply H; lia].
      * intros H k Hk. rewrite <- (char_at_cons c). apply H. lia.
Qed.

Lemma strlen_agree (s t : string) (n : nat) :
  (forall k, (k < n)%nat -> char_at s k = char_at t k) ->
  (strlen s <? n)%nat = (strlen t <? n)%nat.
Proof.
  intros H.
  destruct (Nat.ltb_spec (strlen s) n) as [Hs|Hs];
    destruct (Nat.ltb_spec (strlen t) n) as [Ht|Ht]; try reflexivity.
  - exfalso. pose proof (proj1 (strlen_ge_iff t n) Ht) as Nt.
    assert (Hs' : (n <= strlen s)%nat)
      by (apply (proj2 (strlen_ge_iff s n)); intros k Hk;
          rewrite H by exact Hk; apply Nt, Hk).
    lia.
  - exfalso. pose proof (proj1 (strlen_ge_iff s n) Hs) as Ns.
    assert (Ht' : (n <= strlen t)%nat)
      by (apply (proj2 (strlen_ge_iff t n)); intros k Hk;
          rewrite <- H by exact Hk; apply Ns, Hk).
    lia.
Qed.

(** X6. [uuid_new] reads nothing but the first 36 characters: two strings
    with the same characters at offsets 0 to 35 get the same result, be it
    NULL or a UUID. Whatever follows a well-formed prefix is ignored. *)
Theorem uuid_new_reads_36 (s t : string) :
  (forall k, (k < 36)%nat -> char_at s k = char_at t k) ->
  uuid_new (Some s) = uuid_new (Some t).
Proof.
  intros H. rewrite !uuid_new_unfold.
  rewrite (strlen_agree s t 36 H).
  rewrite (H 8%nat), (H 13%nat), (H 18%nat), (H 23%nat) by lia.
  cbv [map seq hex_offset Nat.leb Nat.add Nat.mul parsed_byte].
  rewrite !H by lia. reflexivity.
Qed.

Lemma uuid_new_reads_36_witness :
  uuid_new (Some "0000180d-0000-1000-8000-00805f9b34fb")
  = uuid_new (Some "0000180d-0000-1000-8000-00805f9b34fb and more").
Proof.
  apply uuid_new_reads_36. intros k Hk.
  do 36 (destruct k as [|k]; [reflexivity|]). lia.
Defined.

Lemma isxdigit_value (c : ascii) :
  isxdigit c = true -> exists d, xdigit_value c = Some d /\ 0 <= d < 16.
Proof.
  intros H.
  pose proof
    (forall_chars
       (fun c => negb (isxdigit c) ||
                 match xdigit_value c with
                 | Some d => (0 <=? d) && (d <? 16)
                 | None => false
                 end)
       ltac:(vm_compute; reflexivity) c) as Hc.
  cbv beta in Hc. rewrite H in Hc. simpl in Hc.
  destruct (xdigit_value c) as [d|]; [|discriminate Hc].
  exists d. split; [reflexivity | lia].
Qed.

Lemma canonical_pattern_xdigit (s : string) (i : nat) :
  canonical_pattern s = true -> (i < 16)%nat ->
  isxdigit (char_at s (hex_offset i)) = true /\
  isxdigit (char_at s (S (hex_offset i))) = true.
Proof.
  intros H Hi. apply andb_true_iff in H as [_ H].
  rewrite forallb_forall in H.
  do 16 (destruct i as [|i];
         [split;
          match goal with
          | |- isxdigit (char_at s ?k) = true =>
              let k' := eval cbv in k in
              exact (H k' ltac:(apply in_seq; lia))
          end|]).
  lia.
Qed.

(** X7. On a 36-character string of the canonical pattern, byte [i] of the
    UUID that [uuid_new] returns is 16 times the value of the first digit
    at the offset of byte [i] plus the value of the second one: bytes are
    read in the order of the string, high nibble first, and a letter
    counts the same in either case. *)
Theorem uuid_new_digit_values (s : string) :
  canonical_pattern s = true ->
  exists u,
    uuid_new (Some s) = Done (Some u) /\
    forall i, (i < 16)%nat ->
      exists hi lo,
        xdigit_value (char_at s (hex_offset i)) = Some hi /\
        xdigit_value (char_at s (S (hex_offset i))) = Some lo /\
        0 <= hi < 16 /\ 0 <= lo < 16 /\
        uu_at u i = 16 * hi + lo.
Proof.
  intros Hs. eexists.
  split; [apply uuid_new_passes, canonical_pattern_passes, Hs|].
  intros i Hi.
  destruct (canonical_pattern_xdigit s i Hs Hi) as [X0 X1].
  destruct (isxdigit_value _ X0) as (hi & Ehi & Bhi).
  destruct (isxdigit_value _ X1) as (lo & Elo & Blo).
  exists hi, lo. repeat (split; [assumption || lia|]).
  rewrite uu_at_parsed by exact Hi. unfold pair_value.
  rewrite Ehi, Elo. reflexivity.
Qed.

Lemma uuid_new_digit_values_witness :
  exists u,
    uuid_new (Some "0000180D-0000-1000-8000-00805F9b34fB") = Done (Some u) /\
    uu_at u 3 = 13 /\ uu_at u 12 = 95.
Proof.
  destruct (uuid_new_digit_values "0000180D-0000-1000-8000-00805F9b34fB"
              eq_refl) as (u & Hu & Hb).
  exists u. split; [exact Hu|].
  destruct (Hb 3%nat ltac:(lia)) as (h3 & l3 & E3 & F3 & _ & _ & V3).
  destruct (Hb 12%nat ltac:(lia)) as (h12 & l12 & E12 & F12 & _ & _ & V12).
  vm_compute in E3, F3, E12, F12.
  injection E3 as <-. injection F3 as <-.
  injection E12 as <-. injection F12 as <-.
  split; [exact V3 | exact V12].
Defined.

(** X8. Parsing is insensitive to the case of the digits and to nothing
    else: two 36-character strings of the canonical pattern parse to the
    same UUID exactly when they are equal once in lower case. *)
Theorem uuid_new_same_iff_lowercase (s t : string) :
  canonical_pattern s = true -> canonical_pattern t = true ->
  (uuid_new (Some s) = uuid_new (Some t) <-> lowercase s = lowercase t).
Proof.
  intros Hs Ht.
  pose proof (uuid_new_passes s (canonical_pattern_passes s Hs)) as Ps.
  pose proof (uuid_new_passes t (canonical_pattern_passes t Ht)) as Pt.
  pose proof (canonical_string_parsed s Hs) as Cs.
  pose proof (canonical_string_parsed t Ht) as Ct.
  pose proof (uuid_new_canonical _ EmptyString (parsed_bytes_wf s)) as Rs.
  pose proof (uuid_new_canonical _ EmptyString (parsed_bytes_wf t)) as Rt.
  rewrite Cs in Rs. rewrite Ct in Rt.
  split.
  - intros E. rewrite Ps, Pt in E.
    rewrite <- Cs, <- Ct. f_equal. congruence.
  - intros E. rewrite Ps, Pt, <- Rs, <- Rt, E. reflexivity.
Qed.

Lemma uuid_new_same_iff_lowercase_witness :
  uuid_new (Some "0000180D-0000-1000-8000-00805F9B34FB")
  = uuid_new (Some "0000180d-0000-1000-8000-00805f9b34fb").
Proof.
  apply (uuid_new_same_iff_lowercase
           "0000180D-0000-1000-8000-00805F9B34FB"
           "0000180d-0000-1000-8000-00805f9b34fb" eq_refl eq_refl).
  reflexivity.
Defined.


(** ** Further properties: narrowing *)

Lemma uuid_128_to_16_true (u : bt_uuid_t) (o x : Z) :
  uuid_wf u ->
  uuid_128_to_16 (Some u) (Some o) = Done (true, x) ->
  uuid_is_base (Some u) = true /\ x = 256 * uu_at u 2 + uu_at u 3.
Proof.
  intros Hwf. unfold uuid_128_to_16. cbn [CHECK_nonnull check_bind].
  destruct (uuid_is_base (Some u)); cbn [negb]; [|discriminate].
  rewrite narrow16_value by (apply uuid_wf_byte, Hwf).
  intros E. injection E as <-. split; reflexivity.
Qed.

Lemma uuid_128_to_32_true (u : bt_uuid_t) (o x : Z) :
  uuid_wf u ->
  uuid_128_to_32 (Some u) (Some o) = Done (true, x) ->
  uuid_is_base (Some u) = true /\
  x = ((uu_at u 0 * 256 + uu_at u 1) * 256 + uu_at u 2) * 256 + uu_at u 3.
Proof.
  intros Hwf. unfold uuid_128_to_32. cbn [CHECK_nonnull check_bind].
  destruct (uuid_is_base (Some u)); cbn [negb]; [|discriminate].
  rewrite narrow32_value by (apply uuid_wf_byte, Hwf).
  intros E. injection E as <-. split; reflexivity.
Qed.

Lemma base_derived_ext (u v : bt_uuid_t) :
  uuid_wf u -> uuid_wf v ->
  uuid_is_base (Some u) = true -> uuid_is_base (Some v) = true ->
  uu_at u 0 = uu_at v 0 -> uu_at u 1 = uu_at v 1 ->
  uu_at u 2 = uu_at v 2 -> uu_at u 3 = uu_at v 3 ->
  u = v.
Proof.
  intros Hu Hv Bu Bv E0 E1 E2 E3. apply uuid_ext; try assumption.
  rewrite uuid_is_base_iff in Bu, Bv.
  intros i Hi.
  destruct i as [|[|[|[|i]]]]; try assumption.
  rewrite Bu, Bv by lia. reflexivity.
Qed.

(** X9. When both narrowings succeed on a valid UUID, the 16-bit value is
    the low 16 bits of the 32-bit value, and each value fits its type. *)
Theorem uuid_128_to_16_low_half (u : bt_uuid_t) (o16 o32 x16 x32 : Z) :
  uuid_wf u ->
  uuid_128_to_16 (Some u) (Some o16) = Done (true, x16) ->
  uuid_128_to_32 (Some u) (Some o32) = Done (true, x32) ->
  x16 = x32 mod 2 ^ 16 /\ 0 <= x16 < 2 ^ 16 /\ 0 <= x32 < 2 ^ 32.
Proof.
  intros Hwf H16 H32.
  apply uuid_128_to_16_true in H16 as [_ ->]; [|exact Hwf].
  apply uuid_128_to_32_true in H32 as [_ ->]; [|exact Hwf].
  pose proof (uuid_wf_byte u 0 Hwf). pose proof (uuid_wf_byte u 1 Hwf).
  pose proof (uuid_wf_byte u 2 Hwf). pose proof (uuid_wf_byte u 3 Hwf).
  change (2 ^ 16) with 65536. change (2 ^ 32) with 4294967296.
  repeat split; try lia.
  Z.to_euclidean_division_equations. lia.
Qed.

Lemma uuid_128_to_16_low_half_witness :
  0x1101 = 0x1101 mod 2 ^ 16 /\ 0 <= 0x1101 < 2 ^ 16 /\ 0 <= 0x1101 < 2 ^ 32.
Proof.
  exact (uuid_128_to_16_low_half uuid_1101 0 0 0x1101 0x1101
           uuid_1101_wf eq_refl eq_refl).
Defined.

(** X10. [uuid_128_to_32] loses nothing: two valid UUIDs on which it
    succeeds with the same value are the same UUID. *)
Theorem uuid_128_to_32_injective (u v : bt_uuid_t) (ou ov x : Z) :
  uuid_wf u -> uuid_wf v ->
  uuid_128_to_32 (Some u) (Some ou) = Done (true, x) ->
  uuid_128_to_32 (Some v) (Some ov) = Done (true, x) ->
  u = v.
Proof.
  intros Hu Hv Eu Ev.
  apply uuid_128_to_32_true in Eu as [Bu Xu]; [|exact Hu].
  apply uuid_128_to_32_true in Ev as [Bv Xv]; [|exact Hv].
  pose proof (uuid_wf_byte u 0 Hu). pose proof (uuid_wf_byte u 1 Hu).
  pose proof (uuid_wf_byte u 2 Hu). pose proof (uuid_wf_byte u 3 Hu).
  pose proof (uuid_wf_byte v 0 Hv). pose proof (uuid_wf_byte v 1 Hv).
  pose proof (uuid_wf_byte v 2 Hv). pose proof (uuid_wf_byte v 3 Hv).
  apply base_derived_ext; try assumption; lia.
Qed.

Lemma uuid_128_to_32_injective_witness : uuid_1101 = uuid_1101.
Proof.
  exact (uuid_128_to_32_injective uuid_1101 uuid_1101 3 5 0x1101
           uuid_1101_wf uuid_1101_wf eq_refl eq_refl).
Defined.

(** X11. Every 32-bit value is the result of [uuid_128_to_32] on some
    valid base-derived UUID: the one whose bytes 0 to 3 are the value in
    big-endian order and whose bytes 4 to 15 are those of [base_uuid]. *)
Theorem uuid_128_to_32_onto (x o : Z) :
  0 <= x < 2 ^ 32 ->
  exists u,
    uuid_wf u /\
    (forall i, (4 <= i < 16)%nat -> uu_at u i = uu_at base_uuid i) /\
    uu_at u 0 = x / 2 ^ 24 /\ uu_at u 3 = x mod 256 /\
    uuid_128_to_32 (Some u) (Some o) = Done (true, x).
Proof.
  intros Hx. change (2 ^ 32) with 4294967296 in Hx.
  change (2 ^ 24) with 16777216.
  exists {| uu := x / 16777216 :: (x / 65536) mod 256 :: (x / 256) mod 256
                  :: x mod 256 :: skipn 4 (uu base_uuid) |}.
  assert (Hwf : uuid_wf
                  {| uu := x / 16777216 :: (x / 65536) mod 256
                           :: (x / 256) mod 256 :: x mod 256
                           :: skipn 4 (uu base_uuid) |}).
  { split; [reflexivity|]. cbn [uu base_uuid skipn].
    repeat constructor; try lia;
      Z.to_euclidean_division_equations; lia. }
  split; [exact Hwf|].
  split.
  { intros i Hi. do 4 (destruct i as [|i]; [lia|]). reflexivity. }
  split; [reflexivity|]. split; [reflexivity|].
  unfold uuid_128_to_32. cbn [CHECK_nonnull check_bind].
  replace (uuid_is_base _) with true by reflexivity. cbn [negb].
  rewrite narrow32_value by (apply uuid_wf_byte, Hwf).
  cbn [uu_at uu nth]. do 2 f_equal.
  Z.to_euclidean_division_equations. lia.
Qed.

Lemma uuid_128_to_32_onto_witness :
  exists u,
    uuid_wf u /\
    uu_at u 0 = 0xde /\ uu_at u 3 = 0xef /\
    uuid_128_to_32 (Some u) (Some 0) = Done (true, 0xdeadbeef).
Proof.
  destruct (uuid_128_to_32_onto 0xdeadbeef 0 ltac:(lia))
    as (u & Hwf & _ & H0 & H3 & Hr).
  exists u. repeat split; try assumption; apply Hwf.
Defined.

(** X12. [uuid_128_to_16] never looks at bytes 0 and 1: two UUIDs with the
    same bytes 2 to 15 get the same result, so that a base-derived UUID
    whose bytes 0 and 1 are not zero is narrowed like the one where they
    are. *)
Theorem uuid_128_to_16_ignores_0_1 (u v : bt_uuid_t) (o : Z) :
  (forall i, (2 <= i < 16)%nat -> uu_at u i = uu_at v i) ->
  uuid_128_to_16 (Some u) (Some o) = uuid_128_to_16 (Some v) (Some o).
Proof.
  intros H. unfold uuid_128_to_16. cbn [CHECK_nonnull check_bind].
  replace (uuid_is_base (Some v)) with (uuid_is_base (Some u)).
  - rewrite (H 2%nat), (H 3%nat) by lia. reflexivity.
  - apply eq_true_iff_eq. rewrite !uuid_is_base_iff.
    split; intros B i Hi; [rewrite <- H by lia | rewrite H by lia];
      apply B, Hi.
Qed.

Lemma uuid_128_to_16_ignores_0_1_witness :
  uuid_128_to_16
    (Some {| uu := [0xde; 0xad; 0x11; 0x01; 0x00; 0x00; 0x10; 0x00; 0x80;
                    0x00; 0x00; 0x80; 0x5f; 0x9b; 0x34; 0xfb] |}) (Some 0)
  = Done (true, 0x1101).
Proof.
  rewrite (uuid_128_to_16_ignores_0_1 _ uuid_1101 0).
  - reflexivity.
  - intros i Hi. do 2 (destruct i as [|i]; [lia|]).
    do 14 (destruct i as [|i]; [reflexivity|]). lia.
Defined.

(** X13. Among the valid UUIDs whose bytes 0 and 1 are zero,
    [uuid_128_to_16] loses nothing: two of them on which it succeeds with
    the same value are the same UUID. *)
Theorem uuid_128_to_16_injective (u v : bt_uuid_t) (ou ov x : Z) :
  uuid_wf u -> uuid_wf v ->
  uu_at u 0 = 0 -> uu_at u 1 = 0 -> uu_at v 0 = 0 -> uu_at v 1 = 0 ->
  uuid_128_to_16 (Some u) (Some ou) = Done (true, x) ->
  uuid_128_to_16 (Some v) (Some ov) = Done (true, x) ->
  u = v.
Proof.
  intros Hu Hv U0 U1 V0 V1 Eu Ev.
  apply uuid_128_to_16_true in Eu as [Bu Xu]; [|exact Hu].
  apply uuid_128_to_16_true in Ev as [Bv Xv]; [|exact Hv].
  pose proof (uuid_wf_byte u 2 Hu). pose proof (uuid_wf_byte u 3 Hu).
  pose proof (uuid_wf_byte v 2 Hv). pose proof (uuid_wf_byte v 3 Hv).
  apply base_derived_ext; try assumption; lia.
Qed.

Lemma uuid_128_to_16_injective_witness : uuid_1101 = uuid_1101.
Proof.
  exact (uuid_128_to_16_injective uuid_1101 uuid_1101 3 5 0x1101
           uuid_1101_wf uuid_1101_wf eq_refl eq_refl eq_refl eq_refl
           eq_refl eq_refl).
Defined.
